(** * The k-bucket contact store of drogulus ([drogulus/dht/kbucket.py])

    A shallow embedding of the [KBucket] class and the properties of its
    public operations.  Python integers are [Z], Python lists of contacts are
    [list Contact.t], and a method of [KBucket] is a computation in a small
    state-and-exception monad over the object's fields: a raised exception
    keeps whatever the method had already written to the object. *)

From Stdlib Require Import List ZArith Bool String Ascii Lia.
Import ListNotations.

Local Open Scope Z_scope.

(** ** Values handed to the store *)

(** Modelled from the spec: the [Contact] class is defined in another module
    of drogulus that is not among the source files at hand.  The spec describes
    it as a value with a node ID whose equality is by ID, both against another
    contact and against a bare identifier; [get_contacts]'s docstring names the
    bare identifier an "id str".  The remaining fields stand for the peer's
    network location, so that two contacts with one ID can differ. *)
Module Contact.

Record t : Type := make
  { id : string;
    address : string;
    port : Z }.

End Contact.

(** What a caller may pass where the store looks a contact up: a [Contact], a
    bare id string, or [None] (the default of [exclude_contact]). *)
Inductive pyobj : Type :=
| PyContact (c : Contact.t)
| PyStr (s : string)
| PyNone.

(** Modelled from the spec: [Contact.__eq__], equality by ID.  [e == x] for a
    stored contact [e]; nothing but a contact or an id string equals one. *)
Definition contact_eq (e : Contact.t) (x : pyobj) : bool :=
  match x with
  | PyContact c => String.eqb (Contact.id e) (Contact.id c)
  | PyStr s => String.eqb (Contact.id e) s
  | PyNone => false
  end.

(** The argument of [key_in_range]: [isinstance(key, str)] tells the external
    hex string from the native integer. *)
Inductive key : Type :=
| KeyStr (s : string)
| KeyInt (z : Z).

(** ** The list primitives of Python the class relies on *)
Module PyList.

(** [x in l] *)
Fixpoint contains (x : pyobj) (l : list Contact.t) : bool :=
  match l with
  | [] => false
  | e :: l' => contact_eq e x || contains x l'
  end.

(** [l.remove(x)]: drops the first element equal to [x]; [None] stands for
    the [ValueError] Python raises when there is none. *)
Fixpoint remove (x : pyobj) (l : list Contact.t) : option (list Contact.t) :=
  match l with
  | [] => None
  | e :: l' =>
      if contact_eq e x then Some l'
      else match remove x l' with
           | Some r => Some (e :: r)
           | None => None
           end
  end.

(** [l.index(x)]: position of the first element equal to [x]; [None] stands
    for the [ValueError]. *)
Fixpoint index (x : pyobj) (l : list Contact.t) : option nat :=
  match l with
  | [] => None
  | e :: l' =>
      if contact_eq e x then Some O
      else match index x l' with
           | Some i => Some (S i)
           | None => None
           end
  end.

(** [l[i]] at a non-negative position; [None] stands for the [IndexError]. *)
Definition getitem (l : list Contact.t) (i : nat) : option Contact.t :=
  nth_error l i.

(** [l.append(x)] *)
Definition append (l : list Contact.t) (x : Contact.t) : list Contact.t :=
  l ++ [x].

(** [len(l)] *)
Definition len (l : list Contact.t) : Z := Z.of_nat (List.length l).

(** [l[:n]], a fresh list: a negative [n] counts from the end. *)
Definition slice_to (l : list Contact.t) (n : Z) : list Contact.t :=
  if n <? 0 then firstn (List.length l - Z.to_nat (- n)) l
  else firstn (Z.to_nat n) l.

End PyList.

(** ** The object and its methods *)

(** The exceptions a method can end with.  [ValueError] is what the spec calls
    the NotFound condition, [KBucketFull] what it calls Full. *)
Inductive exn : Type :=
| KBucketFull
| ValueError
| IndexError.

Inductive outcome (A : Type) : Type :=
| Returned (a : A)
| Raised (e : exn).

Arguments Returned {A} a.
Arguments Raised {A} e.

(** The fields [__init__] sets. *)
Record KBucket : Type := mkKBucket
  { range_min : Z;
    range_max : Z;
    _contacts : list Contact.t;
    last_accessed : Z }.

(** A method body: it reads and writes [self] and returns or raises. *)
Definition M (A : Type) : Type := KBucket -> outcome A * KBucket.

Definition ret {A : Type} (a : A) : M A := fun self => (Returned a, self).

Definition raise {A : Type} (e : exn) : M A := fun self => (Raised e, self).

Definition bind {A B : Type} (m : M A) (k : A -> M B) : M B :=
  fun self =>
    match m self with
    | (Returned a, self') => k a self'
    | (Raised e, self') => (Raised e, self')
    end.

Declare Scope kbucket_scope.
Delimit Scope kbucket_scope with kbucket.

Notation "x <- m ;; k" := (bind m (fun x => k))
  (at level 61, m at next level, right associativity) : kbucket_scope.
Notation "m ;; k" := (bind m (fun _ => k))
  (at level 61, right associativity) : kbucket_scope.

Local Open Scope kbucket_scope.

(** [self._contacts], read. *)
Definition read_contacts : M (list Contact.t) :=
  fun self => (Returned (_contacts self), self).

(** The object whose list has come to hold [l], its other fields as they
    were. *)
Definition with_contacts (self : KBucket) (l : list Contact.t) : KBucket :=
  {| range_min := range_min self;
     range_max := range_max self;
     _contacts := l;
     last_accessed := last_accessed self |}.

(** [self._contacts] mutated in place to hold [l]. *)
Definition write_contacts (l : list Contact.t) : M unit :=
  fun self => (Returned tt, with_contacts self l).

(** An optional result turned into a return or the given exception. *)
Definition or_raise {A : Type} (e : exn) (o : option A) : M A :=
  match o with
  | Some a => ret a
  | None => raise e
  end.

(** [self._contacts.remove(x)] *)
Definition contacts_remove (x : pyobj) : M unit :=
  l <- read_contacts ;;
  l' <- or_raise ValueError (PyList.remove x l) ;;
  write_contacts l'.

(** [self._contacts.append(c)] *)
Definition contacts_append (c : Contact.t) : M unit :=
  l <- read_contacts ;;
  write_contacts (PyList.append l c).

(** [KBucket(range_min, range_max)] *)
Definition __init__ (range_min range_max : Z) : KBucket :=
  {| range_min := range_min;
     range_max := range_max;
     _contacts := [];
     last_accessed := 0 |}.

Section Methods.

(** [drogulus.constants.K], the capacity of a bucket.  The constants module
    is not among the source files; the spec gives it as a count of contacts
    (20 in the reference system). *)
Variable K : nat.

(** [drogulus.utils.hex_to_long], the keyspace utility.  It is not among the
    source files either; [None] stands for a string it rejects with a
    [ValueError]. *)
Variable hex_to_long : string -> option Z.

Definition add_contact (contact : Contact.t) : M unit :=
  l <- read_contacts ;;
  if PyList.contains (PyContact contact) l then
    contacts_remove (PyContact contact) ;;
    contacts_append contact
  else if PyList.len l <? Z.of_nat K then
    contacts_append contact
  else
    raise KBucketFull.

Definition get_contact (id : pyobj) : M Contact.t :=
  l <- read_contacts ;;
  index <- or_raise ValueError (PyList.index id l) ;;
  l <- read_contacts ;;
  or_raise IndexError (PyList.getitem l index).

Definition get_contacts (count : Z) (exclude_contact : pyobj)
  : M (list Contact.t) :=
  l <- read_contacts ;;
  let current_len := PyList.len l in
  let count := if count <=? 0 then current_len else count in
  let contact_list :=
    match l with
    | [] => []
    | _ :: _ =>
        if current_len <? count then PyList.slice_to l current_len
        else PyList.slice_to l count
    end in
  if PyList.contains exclude_contact contact_list then
    or_raise ValueError (PyList.remove exclude_contact contact_list)
  else
    ret contact_list.

Definition remove_contact (id : pyobj) : M unit :=
  contacts_remove id.

Definition key_in_range (k : key) : M bool :=
  k <- match k with
       | KeyStr s => or_raise ValueError (hex_to_long s)
       | KeyInt z => ret z
       end ;;
  fun self =>
    (Returned ((range_min self <=? k) && (k <? range_max self)), self).

Definition __len__ : M Z :=
  l <- read_contacts ;;
  ret (PyList.len l).

(** *** Calls on the public interface *)

Inductive call : Type :=
| AddContact (contact : Contact.t)
| GetContact (id : pyobj)
| GetContacts (count : Z) (exclude_contact : pyobj)
| RemoveContact (id : pyobj)
| KeyInRange (k : key)
| Len.

(** What a call ends with, the returned value forgotten. *)
Definition status {A : Type} (r : outcome A * KBucket)
  : option exn * KBucket :=
  match r with
  | (Returned _, self) => (None, self)
  | (Raised e, self) => (Some e, self)
  end.

Definition perform (c : call) (self : KBucket) : option exn * KBucket :=
  match c with
  | AddContact contact => status (add_contact contact self)
  | GetContact id => status (get_contact id self)
  | GetContacts count exclude_contact =>
      status (get_contacts count exclude_contact self)
  | RemoveContact id => status (remove_contact id self)
  | KeyInRange k => status (key_in_range k self)
  | Len => status (__len__ self)
  end.

(** The object after a call, however the call ended. *)
Definition after (c : call) (self : KBucket) : KBucket :=
  snd (perform c self).

(** The object after a sequence of calls on a fresh bucket. *)
Definition history (range_min range_max : Z) (calls : list call) : KBucket :=
  fold_left (fun self c => after c self) calls (__init__ range_min range_max).

(** *** The data model's invariants *)

Definition unique_ids (l : list Contact.t) : Prop :=
  NoDup (map Contact.id l).

Definition kbucket_inv (self : KBucket) : Prop :=
  0 <= PyList.len (_contacts self) <= Z.of_nat K
  /\ unique_ids (_contacts self).

End Methods.

(** ** A small bucket to run the methods on

    The scenario of the spec: capacity 2 and three peers. *)

Definition peer_a : Contact.t := Contact.make "0a" "192.168.0.1" 9999.
Definition peer_b : Contact.t := Contact.make "0b" "192.168.0.2" 9999.
Definition peer_c : Contact.t := Contact.make "0c" "192.168.0.3" 9999.

(** [peer_a] seen again at another address: same ID, another value. *)
Definition peer_a_moved : Contact.t := Contact.make "0a" "10.0.0.7" 8888.

Definition bucket_of (l : list Contact.t) : KBucket :=
  {| range_min := 0; range_max := 256; _contacts := l; last_accessed := 0 |}.

(** Modelled from the spec: one hexadecimal digit of an identifier's external
    form, in either case. *)
Definition hex_digit (a : ascii) : option Z :=
  let n := Z.of_nat (nat_of_ascii a) in
  if (48 <=? n) && (n <=? 57) then Some (n - 48)
  else if (97 <=? n) && (n <=? 102) then Some (n - 87)
  else if (65 <=? n) && (n <=? 70) then Some (n - 55)
  else None.

(** Modelled from the spec: the digits read most significant first. *)
Fixpoint hex_digits (acc : Z) (s : string) : option Z :=
  match s with
  | EmptyString => Some acc
  | String a s' =>
      match hex_digit a with
      | Some d => hex_digits (16 * acc + d) s'
      | None => None
      end
  end.

(** Modelled from the spec: the keyspace utility that "converts an external
    hex-string identifier representation into the integer domain"; its code is
    not among the source files.  It only serves to run [key_in_range] on
    concrete strings: the properties below hold for any conversion. *)
Definition hex_string_to_long (s : string) : option Z :=
  match s with
  | EmptyString => None
  | _ => hex_digits 0 s
  end.

(** ** Callers

    A caller's loop over the store, [for c in cs: bucket.add_contact(c)]:
    the calls follow one another on the same object and the first exception
    ends the loop. *)
Fixpoint add_each (K : nat) (cs : list Contact.t) : M unit :=
  match cs with
  | [] => ret tt
  | c :: cs' => add_contact K c ;; add_each K cs'
  end.

(** ** The low-level protocol ([drogulus/dht/net.py])

    [DHTProtocol] is a Twisted [NetstringReceiver].  Twisted sets the
    [transport] of a protocol before it calls [connectionMade] and before any
    string arrives, so the object is modelled once connected.  Of the
    transport only what the class touches is kept: the peer [getPeer()]
    reports and the strings [write] was handed, oldest first. *)
Module Net.

Record Transport : Type := mkTransport
  { peer : string;
    written : list string }.

(** [transport.write(raw)] *)
Definition write (t : Transport) (raw : string) : Transport :=
  {| peer := peer t; written := written t ++ [raw] |}.

Section Protocol.

(** The object that stands for the local node; the class only stores it. *)
Variable Node : Type.

Record DHTProtocol : Type := mkDHTProtocol
  { _node : option Node;
    transport : Transport }.

(** [DHTProtocol(node)] followed by Twisted's [makeConnection(t)]. *)
Definition connect (node : option Node) (t : Transport) : DHTProtocol :=
  {| _node := node; transport := t |}.

(** [DHTFactory.buildProtocol(node)], then connected to [t]. *)
Definition buildProtocol (node : option Node) (t : Transport) : DHTProtocol :=
  connect node t.

(** [connectionMade]: reads the peer and drops it. *)
Definition connectionMade (self : DHTProtocol) : DHTProtocol :=
  let peer := peer (transport self) in
  self.

(** [stringReceived(raw)] *)
Definition stringReceived (self : DHTProtocol) (raw : string) : DHTProtocol :=
  {| _node := _node self; transport := write (transport self) raw |}.

(** A connection's life: made, then the strings as they arrive. *)
Definition serve (self : DHTProtocol) (raws : list string) : DHTProtocol :=
  fold_left stringReceived raws (connectionMade self).

End Protocol.

Arguments _node {Node} d.
Arguments transport {Node} d.
Arguments connect {Node} node t.
Arguments buildProtocol {Node} node t.
Arguments connectionMade {Node} self.
Arguments stringReceived {Node} self raw.
Arguments serve {Node} self raws.

End Net.

(** ** Proof steps used throughout *)

(** Unfolds a method down to the list primitives. *)
Ltac run_method :=
  cbv beta iota zeta delta
    [bind ret raise or_raise read_contacts write_contacts
     contacts_remove contacts_append].

(** Settles that no contact of a literal list has a given ID. *)
Ltac distinct_ids :=
  let e := fresh "e" in
  let H := fresh "H" in
  intros e H; cbn in H;
  repeat (destruct H as [H | H]; [subst e; cbn; discriminate|]);
  destruct H.

(** ** Facts about the list primitives *)

Section PyListFacts.

Variable x : pyobj.

Lemma contains_true (l : list Contact.t) :
  PyList.contains x l = true <->
  exists e, In e l /\ contact_eq e x = true.
Proof.
  induction l as [|a l IH]; simpl.
  - split; [discriminate | intros (e & [] & _)].
  - rewrite orb_true_iff, IH. split.
    + intros [Ha | (e & He & Hx)]; eauto.
    + intros (e & [<- | He] & Hx); eauto.
Qed.

Lemma contains_false (l : list Contact.t) :
  PyList.contains x l = false <->
  forall e, In e l -> contact_eq e x = false.
Proof.
  induction l as [|a l IH]; simpl.
  - split; [intros _ e [] | reflexivity].
  - rewrite orb_false_iff, IH. split.
    + intros [Ha Hl] e [<- | He]; auto.
    + intros H; split; auto.
Qed.

Lemma contains_app (l1 l2 : list Contact.t) :
  PyList.contains x (l1 ++ l2) =
  PyList.contains x l1 || PyList.contains x l2.
Proof.
  induction l1 as [|a l1 IH]; simpl; [reflexivity|].
  now rewrite IH, orb_assoc.
Qed.

(** A successful [remove] took out the first match and nothing else. *)
Lemma remove_some (l r : list Contact.t) :
  PyList.remove x l = Some r ->
  exists before e after,
    l = before ++ e :: after /\ r = before ++ after /\
    contact_eq e x = true /\
    (forall y, In y before -> contact_eq y x = false).
Proof.
  revert r; induction l as [|a l IH]; simpl; intros r H; [discriminate|].
  destruct (contact_eq a x) eqn:Ha.
  - injection H as <-. exists [], a, l. simpl. intuition.
  - destruct (PyList.remove x l) as [r'|]; [|discriminate].
    injection H as <-.
    destruct (IH r' eq_refl) as (before & e & after & -> & -> & He & Hb).
    exists (a :: before), e, after. simpl. repeat split; auto.
    intros y [<- | Hy]; auto.
Qed.

Lemma remove_present (l : list Contact.t) :
  PyList.contains x l = true -> exists r, PyList.remove x l = Some r.
Proof.
  induction l as [|a l IH]; simpl; [discriminate|].
  destruct (contact_eq a x); simpl; intros H; [eauto|].
  destruct (IH H) as [r ->]. eauto.
Qed.

Lemma remove_absent (l : list Contact.t) :
  PyList.contains x l = false -> PyList.remove x l = None.
Proof.
  induction l as [|a l IH]; simpl; [reflexivity|].
  destruct (contact_eq a x); simpl; [discriminate|].
  intros H. now rewrite (IH H).
Qed.

Lemma index_absent (l : list Contact.t) :
  PyList.contains x l = false -> PyList.index x l = None.
Proof.
  induction l as [|a l IH]; simpl; [reflexivity|].
  destruct (contact_eq a x); simpl; [discriminate|].
  intros H. now rewrite (IH H).
Qed.

(** [index] of a present value is a position of the list, holding a match. *)
Lemma index_present (l : list Contact.t) :
  PyList.contains x l = true ->
  exists i e, PyList.index x l = Some i /\ PyList.getitem l i = Some e /\
              contact_eq e x = true.
Proof.
  induction l as [|a l IH]; simpl; [discriminate|].
  destruct (contact_eq a x) eqn:Ha; simpl; intros H.
  - exists O, a. auto.
  - destruct (IH H) as (i & e & -> & Hi & He). exists (S i), e. auto.
Qed.

Lemma remove_last (l : list Contact.t) (c : Contact.t) :
  PyList.contains x l = false -> contact_eq c x = true ->
  PyList.remove x (l ++ [c]) = Some l.
Proof.
  intros Hl Hc. induction l as [|a l IH]; simpl in *.
  - now rewrite Hc.
  - apply orb_false_iff in Hl as [-> Hl]. now rewrite (IH Hl).
Qed.

End PyListFacts.

Lemma contact_eq_refl (c : Contact.t) : contact_eq c (PyContact c) = true.
Proof. apply String.eqb_refl. Qed.

Lemma contact_eq_id (e c : Contact.t) :
  contact_eq e (PyContact c) = true <-> Contact.id e = Contact.id c.
Proof. apply String.eqb_eq. Qed.

Lemma absent_by_id (c : Contact.t) (l : list Contact.t) :
  PyList.contains (PyContact c) l = false <-> ~ In (Contact.id c) (map Contact.id l).
Proof.
  rewrite contains_false, in_map_iff. split.
  - intros H (e & Hid & He). specialize (H e He).
    apply String.eqb_neq in H. congruence.
  - intros H e He. apply String.eqb_neq. intros Hid. apply H. eauto.
Qed.

Lemma unique_ids_remove (x : pyobj) (l r : list Contact.t) :
  unique_ids l -> PyList.remove x l = Some r -> unique_ids r.
Proof.
  unfold unique_ids. intros Hl Hr.
  destruct (remove_some x l r Hr) as (before & e & after & -> & -> & _).
  rewrite map_app in *. simpl in Hl. now apply NoDup_remove_1 in Hl.
Qed.

(** Once the one contact with [c]'s ID is out, none is left. *)
Lemma unique_ids_remove_absent (c : Contact.t) (l r : list Contact.t) :
  unique_ids l -> PyList.remove (PyContact c) l = Some r ->
  PyList.contains (PyContact c) r = false.
Proof.
  unfold unique_ids. intros Hl Hr.
  destruct (remove_some _ l r Hr) as (before & e & after & -> & -> & He & _).
  apply absent_by_id. apply contact_eq_id in He. rewrite <- He.
  rewrite map_app in *. simpl in Hl. now apply NoDup_remove_2 in Hl.
Qed.

Lemma unique_ids_append (c : Contact.t) (l : list Contact.t) :
  unique_ids l -> PyList.contains (PyContact c) l = false ->
  unique_ids (PyList.append l c).
Proof.
  unfold unique_ids, PyList.append. intros Hl Hc.
  rewrite map_app. simpl. apply NoDup_app; auto.
  - repeat constructor. intros [].
  - intros i Hi [<- | []]. now apply absent_by_id in Hc.
Qed.

Lemma with_contacts_same (self : KBucket) :
  with_contacts self (_contacts self) = self.
Proof. now destruct self. Qed.

Lemma len_app_one (l : list Contact.t) (c : Contact.t) :
  PyList.len (l ++ [c]) = PyList.len l + 1.
Proof. unfold PyList.len. rewrite length_app. simpl. lia. Qed.

(** ** The methods, one at a time *)

Section MethodFacts.

Variable K : nat.
Variable hex_to_long : string -> option Z.

(** What [add_contact] does in each of its three branches. *)

Lemma add_contact_present (self : KBucket) (contact : Contact.t)
      (r : list Contact.t) :
  PyList.remove (PyContact contact) (_contacts self) = Some r ->
  add_contact K contact self =
  (Returned tt, with_contacts self (PyList.append r contact)).
Proof.
  intros Hr. unfold add_contact. run_method.
  destruct (remove_some _ _ _ Hr) as (before & e & after & Hl & _ & He & _).
  assert (Hin : PyList.contains (PyContact contact) (_contacts self) = true).
  { apply contains_true. exists e. rewrite Hl. split; [|exact He].
    apply in_elt. }
  rewrite Hin, Hr. reflexivity.
Qed.

Lemma add_contact_absent_room (self : KBucket) (contact : Contact.t) :
  PyList.contains (PyContact contact) (_contacts self) = false ->
  PyList.len (_contacts self) < Z.of_nat K ->
  add_contact K contact self =
  (Returned tt, with_contacts self (PyList.append (_contacts self) contact)).
Proof.
  intros Hin Hlen. unfold add_contact. run_method.
  apply Z.ltb_lt in Hlen. now rewrite Hin, Hlen.
Qed.

Lemma add_contact_absent_full (self : KBucket) (contact : Contact.t) :
  PyList.contains (PyContact contact) (_contacts self) = false ->
  Z.of_nat K <= PyList.len (_contacts self) ->
  add_contact K contact self = (Raised KBucketFull, self).
Proof.
  intros Hin Hlen. unfold add_contact. run_method.
  apply Z.ltb_ge in Hlen. now rewrite Hin, Hlen.
Qed.

(** The three branches are all there is. *)
Lemma add_contact_cases (self : KBucket) (contact : Contact.t) :
  (exists r, PyList.remove (PyContact contact) (_contacts self) = Some r /\
             add_contact K contact self =
             (Returned tt, with_contacts self (PyList.append r contact)))
  \/ (PyList.contains (PyContact contact) (_contacts self) = false /\
      PyList.len (_contacts self) < Z.of_nat K /\
      add_contact K contact self =
      (Returned tt,
       with_contacts self (PyList.append (_contacts self) contact)))
  \/ (PyList.contains (PyContact contact) (_contacts self) = false /\
      Z.of_nat K <= PyList.len (_contacts self) /\
      add_contact K contact self = (Raised KBucketFull, self)).
Proof.
  destruct (PyList.contains (PyContact contact) (_contacts self)) eqn:Hin.
  - left. destruct (remove_present _ _ Hin) as [r Hr].
    exists r. split; [exact Hr | now apply add_contact_present].
  - right. destruct (Z.lt_ge_cases (PyList.len (_contacts self)) (Z.of_nat K)).
    + left. repeat split; auto using add_contact_absent_room.
    + right. repeat split; auto using add_contact_absent_full.
Qed.

Lemma remove_contact_cases (self : KBucket) (id : pyobj) :
  (exists r, PyList.remove id (_contacts self) = Some r /\
             remove_contact id self = (Returned tt, with_contacts self r))
  \/ (PyList.contains id (_contacts self) = false /\
      remove_contact id self = (Raised ValueError, self)).
Proof.
  unfold remove_contact. run_method.
  destruct (PyList.contains id (_contacts self)) eqn:Hin.
  - left. destruct (remove_present _ _ Hin) as [r Hr].
    exists r. now rewrite Hr.
  - right. now rewrite (remove_absent _ _ Hin).
Qed.

(** The slice [get_contacts] cuts before it looks at [exclude_contact]:
    in every branch the first [min(count, size)] contacts. *)
Lemma get_contacts_slice (l : list Contact.t) (count : Z) :
  let size := PyList.len l in
  let wanted := if count <=? 0 then size else count in
  match l with
  | [] => []
  | _ :: _ =>
      if size <? wanted then PyList.slice_to l size
      else PyList.slice_to l wanted
  end = firstn (Z.to_nat (Z.min wanted size)) l.
Proof.
  intros size wanted. destruct l as [|a l]; [now rewrite firstn_nil|].
  set (l' := a :: l) in *.
  assert (Hsize : 0 < size) by (unfold size, PyList.len; simpl; lia).
  assert (Hwanted : 0 < wanted).
  { unfold wanted. destruct (Z.leb_spec count 0); lia. }
  unfold PyList.slice_to.
  destruct (Z.ltb_spec size wanted) as [Hlt | Hge].
  - destruct (Z.ltb_spec size 0); [lia|]. now rewrite Z.min_r by lia.
  - destruct (Z.ltb_spec wanted 0); [lia|]. now rewrite Z.min_l by lia.
Qed.

(** The read-only methods hand the object back as it was. *)

Lemma get_contact_frame (self : KBucket) (id : pyobj) :
  snd (get_contact id self) = self.
Proof.
  unfold get_contact. run_method.
  destruct (PyList.index id (_contacts self)) as [i|]; [|reflexivity].
  now destruct (PyList.getitem (_contacts self) i).
Qed.

Lemma get_contacts_frame (self : KBucket) (count : Z) (x : pyobj) :
  snd (get_contacts count x self) = self.
Proof.
  unfold get_contacts. run_method.
  match goal with |- context [PyList.contains x ?s] => set (slice := s) end.
  destruct (PyList.contains x slice); [|reflexivity].
  now destruct (PyList.remove x slice).
Qed.

Lemma key_in_range_frame (self : KBucket) (k : key) :
  snd (key_in_range hex_to_long k self) = self.
Proof.
  unfold key_in_range. run_method.
  destruct k as [s|z]; [|reflexivity].
  now destruct (hex_to_long s).
Qed.

(** A call leaves the object alone or rewrites its list, nothing else. *)
Lemma after_cases (c : call) (self : KBucket) :
  after K hex_to_long c self = self \/
  exists l, after K hex_to_long c self = with_contacts self l.
Proof.
  unfold after, perform.
  destruct c as [contact|id|count x|id|k|].
  - destruct (add_contact_cases self contact)
      as [(r & _ & ->) | [(_ & _ & ->) | (_ & _ & ->)]]; simpl; eauto.
  - left. rewrite <- (get_contact_frame self id) at 2.
    now destruct (get_contact id self) as [[]].
  - left. rewrite <- (get_contacts_frame self count x) at 2.
    now destruct (get_contacts count x self) as [[]].
  - destruct (remove_contact_cases self id) as [(r & _ & ->) | (_ & ->)];
      simpl; eauto.
  - left. rewrite <- (key_in_range_frame self k) at 2.
    now destruct (key_in_range hex_to_long k self) as [[]].
  - now left.
Qed.

(** The invariants of the data model along the calls. *)

Lemma kbucket_inv_init (lo hi : Z) : kbucket_inv K (__init__ lo hi).
Proof.
  unfold kbucket_inv, unique_ids, PyList.len. simpl.
  split; [lia | constructor].
Qed.

Lemma kbucket_inv_add_contact (self : KBucket) (contact : Contact.t) :
  kbucket_inv K self -> kbucket_inv K (snd (add_contact K contact self)).
Proof.
  intros [Hlen Huniq].
  destruct (add_contact_cases self contact)
    as [(r & Hr & ->) | [(Hin & Hroom & ->) | (_ & _ & ->)]];
    simpl; [| |split; assumption].
  - destruct (remove_some _ _ _ Hr) as (before & e & after' & Hl & Hr' & _).
    split; simpl.
    + unfold PyList.append. rewrite len_app_one.
      unfold PyList.len in *. rewrite Hl, length_app in Hlen.
      rewrite Hr', length_app. simpl in Hlen. lia.
    + apply unique_ids_append.
      * exact (unique_ids_remove _ _ _ Huniq Hr).
      * exact (unique_ids_remove_absent _ _ _ Huniq Hr).
  - split; simpl.
    + unfold PyList.append. rewrite len_app_one. lia.
    + now apply unique_ids_append.
Qed.

Lemma kbucket_inv_remove_contact (self : KBucket) (id : pyobj) :
  kbucket_inv K self -> kbucket_inv K (snd (remove_contact id self)).
Proof.
  intros [Hlen Huniq].
  destruct (remove_contact_cases self id) as [(r & Hr & ->) | (_ & ->)];
    simpl; [|split; assumption].
  destruct (remove_some _ _ _ Hr) as (before & e & after' & Hl & Hr' & _).
  split; simpl.
  - unfold PyList.len in *. rewrite Hl, length_app in Hlen.
    rewrite Hr', length_app. simpl in Hlen. lia.
  - exact (unique_ids_remove _ _ _ Huniq Hr).
Qed.

Lemma snd_status {A : Type} (r : outcome A * KBucket) :
  snd (status r) = snd r.
Proof. now destruct r as [[]]. Qed.

Lemma kbucket_inv_after (c : call) (self : KBucket) :
  kbucket_inv K self -> kbucket_inv K (after K hex_to_long c self).
Proof.
  intros Hinv. unfold after, perform.
  destruct c as [contact|id|count x|id|k|]; rewrite snd_status.
  - now apply kbucket_inv_add_contact.
  - now rewrite get_contact_frame.
  - now rewrite get_contacts_frame.
  - now apply kbucket_inv_remove_contact.
  - now rewrite key_in_range_frame.
  - exact Hinv.
Qed.

Lemma kbucket_inv_history (lo hi : Z) (calls : list call) :
  kbucket_inv K (history K hex_to_long lo hi calls).
Proof.
  unfold history. generalize (kbucket_inv_init lo hi).
  generalize (__init__ lo hi) as self.
  induction calls as [|c calls IH]; intros self Hinv; simpl; [exact Hinv|].
  apply IH. now apply kbucket_inv_after.
Qed.

(** Adding again what an [add_contact] has just put at the tail, in a bucket
    whose contacts have pairwise distinct IDs. *)
Lemma add_contact_again (self self1 : KBucket) (contact : Contact.t) :
  unique_ids (_contacts self) ->
  add_contact K contact self = (Returned tt, self1) ->
  add_contact K contact self1 = (Returned tt, self1).
Proof.
  intros Huniq Hfirst.
  assert (Hshape : exists l,
             PyList.contains (PyContact contact) l = false /\
             self1 = with_contacts self (PyList.append l contact)).
  { destruct (add_contact_cases self contact)
      as [(r & Hr & E) | [(Hin & _ & E) | (_ & _ & E)]];
      rewrite E in Hfirst; [| |discriminate]; injection Hfirst as <-.
    - exists r. split; [|reflexivity].
      exact (unique_ids_remove_absent _ _ _ Huniq Hr).
    - exists (_contacts self). auto. }
  destruct Hshape as (l & Hl & ->).
  rewrite (add_contact_present _ contact l); [reflexivity|].
  simpl. apply remove_last; [exact Hl | apply contact_eq_refl].
Qed.

End MethodFacts.

(** ** Properties of the store *)

Section Claims.

Variable K : nat.
Variable hex_to_long : string -> option Z.

(** C1.  A bucket that holds [K] contacts, none of them with the ID of
    [contact], answers [add_contact contact] with [KBucketFull] (the Full
    condition), and the object after the call is the object before it:
    same contacts in the same order, hence the same size. *)
Theorem add_contact_full_raises (self : KBucket) (contact : Contact.t) :
  PyList.len (_contacts self) = Z.of_nat K ->
  (forall e, In e (_contacts self) -> Contact.id e <> Contact.id contact) ->
  add_contact K contact self = (Raised KBucketFull, self).
Proof.
  intros Hlen Hnew. apply add_contact_absent_full; [|lia].
  apply contains_false. intros e He. apply String.eqb_neq. auto.
Qed.

(** C2.  The invariants of the data model, [0 <= len(contacts) <= K] and
    no two contacts with one ID, hold of a freshly constructed bucket and
    still hold after any call on the public interface ([add_contact],
    [get_contact], [get_contacts], [remove_contact], [key_in_range],
    [__len__]), whether it returned or raised; so they hold after any
    sequence of calls on a fresh bucket. *)
Theorem kbucket_inv_preserved :
  (forall lo hi, kbucket_inv K (__init__ lo hi)) /\
  (forall c self,
      kbucket_inv K self -> kbucket_inv K (after K hex_to_long c self)) /\
  (forall lo hi calls, kbucket_inv K (history K hex_to_long lo hi calls)).
Proof.
  split; [|split].
  - exact (kbucket_inv_init K).
  - exact (kbucket_inv_after K hex_to_long).
  - exact (kbucket_inv_history K hex_to_long).
Qed.

(** C3.  When the bucket already holds a contact with the ID of [contact],
    [add_contact contact] returns: the first (under the invariant, the
    only) stored contact with that ID leaves its place, [contact] goes to
    the tail, the contacts before and after that place keep their order,
    and the size is what it was.  Nothing is asked of the size, so this
    covers a bucket holding [K] contacts. *)
Theorem add_contact_existing_moves_to_tail
        (self : KBucket) (contact : Contact.t) :
  (exists e, In e (_contacts self) /\ Contact.id e = Contact.id contact) ->
  exists before e after,
    _contacts self = before ++ e :: after /\
    Contact.id e = Contact.id contact /\
    (forall y, In y before -> Contact.id y <> Contact.id contact) /\
    add_contact K contact self =
    (Returned tt, with_contacts self (before ++ after ++ [contact])) /\
    PyList.len (before ++ after ++ [contact]) = PyList.len (_contacts self).
Proof.
  intros (e0 & Hin & Hid).
  assert (Hc : PyList.contains (PyContact contact) (_contacts self) = true).
  { apply contains_true. exists e0. split; [exact Hin|].
    now apply contact_eq_id. }
  destruct (remove_present _ _ Hc) as [r Hr].
  destruct (remove_some _ _ _ Hr) as (before & e & after & Hl & Hr' & He & Hb).
  exists before, e, after. repeat split.
  - exact Hl.
  - now apply contact_eq_id.
  - intros y Hy. apply String.eqb_neq. exact (Hb y Hy).
  - rewrite (add_contact_present K self contact r Hr).
    unfold PyList.append. now rewrite Hr', <- app_assoc.
  - unfold PyList.len. rewrite Hl, !length_app. simpl.
    rewrite ?length_app. simpl. lia.
Qed.

(** C4.  When the bucket holds fewer than [K] contacts and none has the ID
    of [contact], [add_contact contact] returns, the list is the old list
    with [contact] appended at the tail, and the size has grown by one. *)
Theorem add_contact_new_appends (self : KBucket) (contact : Contact.t) :
  PyList.len (_contacts self) < Z.of_nat K ->
  (forall e, In e (_contacts self) -> Contact.id e <> Contact.id contact) ->
  exists self',
    add_contact K contact self = (Returned tt, self') /\
    self' = with_contacts self (_contacts self ++ [contact]) /\
    PyList.len (_contacts self') = PyList.len (_contacts self) + 1.
Proof.
  intros Hlen Hnew.
  exists (with_contacts self (_contacts self ++ [contact])).
  repeat split.
  - apply add_contact_absent_room; [|exact Hlen].
    apply contains_false. intros e He. apply String.eqb_neq. auto.
  - simpl. apply len_app_one.
Qed.

(** C5.  [get_contacts count exclude_contact] always returns and leaves
    the bucket as it was.  With [count <= 0] read as the size, the slice
    is the first [min(count, size)] contacts in stored order.  When no
    contact of the slice equals [exclude_contact] (whatever the rest of
    the bucket holds), the result is the slice; when one does, the result
    is the slice without the first such contact, one element shorter, and
    nothing from beyond the slice takes its place. *)
Theorem get_contacts_prefix_then_exclude
        (self : KBucket) (count : Z) (exclude_contact : pyobj) :
  let size := PyList.len (_contacts self) in
  let wanted := if count <=? 0 then size else count in
  let slice := firstn (Z.to_nat (Z.min wanted size)) (_contacts self) in
  exists result,
    get_contacts count exclude_contact self = (Returned result, self) /\
    ((forall e, In e slice -> contact_eq e exclude_contact = false) ->
     result = slice) /\
    ((exists e, In e slice /\ contact_eq e exclude_contact = true) ->
     exists before e after,
       slice = before ++ e :: after /\
       contact_eq e exclude_contact = true /\
       (forall y, In y before -> contact_eq y exclude_contact = false) /\
       result = before ++ after /\
       (List.length result + 1 = List.length slice)%nat).
Proof.
  intros size wanted slice.
  pose proof (get_contacts_slice (_contacts self) count) as Hcut.
  cbv zeta in Hcut. fold size in Hcut. fold wanted in Hcut. fold slice in Hcut.
  unfold get_contacts. run_method. fold size. fold wanted. rewrite Hcut.
  destruct (PyList.contains exclude_contact slice) eqn:Hin.
  - destruct (remove_present _ _ Hin) as [r Hr]. rewrite Hr.
    exists r. split; [reflexivity|]. split.
    + intros Hnone. apply contains_false in Hnone. congruence.
    + intros _.
      destruct (remove_some _ _ _ Hr)
        as (before & e & after & Hs & Hr' & He & Hb).
      exists before, e, after. repeat split; auto.
      rewrite Hs, Hr', !length_app. simpl. lia.
  - exists slice. split; [reflexivity|]. split; [reflexivity|].
    intros Hsome. apply contains_true in Hsome. congruence.
Qed.

(** C6 (amended).  On an integer key, [key_in_range] returns, leaves the
    bucket alone, and answers true exactly when
    [range_min <= key < range_max].  The upper bound is never in range.
    The lower bound is in range exactly when [range_min < range_max]: the
    constructor takes any two bounds, and a bucket built with
    [range_min >= range_max] covers nothing, its own lower bound
    included. *)
Theorem key_in_range_half_open (self : KBucket) (k : Z) :
  (exists b,
      key_in_range hex_to_long (KeyInt k) self = (Returned b, self) /\
      (b = true <-> range_min self <= k < range_max self)) /\
  key_in_range hex_to_long (KeyInt (range_max self)) self =
  (Returned false, self) /\
  key_in_range hex_to_long (KeyInt (range_min self)) self =
  (Returned (range_min self <? range_max self), self).
Proof.
  unfold key_in_range. run_method. repeat split.
  - eexists. split; [reflexivity|].
    rewrite andb_true_iff, Z.leb_le, Z.ltb_lt. reflexivity.
  - now rewrite Z.ltb_irrefl, andb_false_r.
  - now rewrite Z.leb_refl.
Qed.

(** C7.  When no stored contact equals [id], [get_contact id] and
    [remove_contact id] both raise [ValueError] (the NotFound condition)
    and the bucket after either is the bucket before it.  Whenever
    [remove_contact id] returns, the bucket holds exactly one contact
    fewer; and it does return as soon as some stored contact equals
    [id]. *)
Theorem absent_id_raises_value_error (self : KBucket) (id : pyobj) :
  ((forall e, In e (_contacts self) -> contact_eq e id = false) ->
   get_contact id self = (Raised ValueError, self) /\
   remove_contact id self = (Raised ValueError, self)) /\
  (forall self',
      remove_contact id self = (Returned tt, self') ->
      PyList.len (_contacts self') = PyList.len (_contacts self) - 1) /\
  ((exists e, In e (_contacts self) /\ contact_eq e id = true) ->
   exists self', remove_contact id self = (Returned tt, self')).
Proof.
  split; [|split].
  - intros Habsent. apply contains_false in Habsent. split.
    + unfold get_contact. run_method.
      now rewrite (index_absent _ _ Habsent).
    + destruct (remove_contact_cases self id) as [(r & Hr & _) | (_ & Hrm)];
        [|exact Hrm].
      rewrite (remove_absent _ _ Habsent) in Hr. discriminate.
  - intros self' Hrm.
    destruct (remove_contact_cases self id) as [(r & Hr & E) | (_ & E)];
      rewrite E in Hrm; [|discriminate].
    injection Hrm as <-. simpl.
    destruct (remove_some _ _ _ Hr) as (before & e & after' & -> & -> & _).
    unfold PyList.len. rewrite !length_app. simpl. lia.
  - intros Hsome. apply contains_true in Hsome.
    destruct (remove_contact_cases self id) as [(r & _ & E) | (Hno & _)];
      [eauto | congruence].
Qed.

(** C8.  When the keyspace utility turns the hex string [h] into the
    integer [k], [key_in_range] on [h] returns, leaves the bucket as it
    was, and answers with the boolean it answers with on [k]: the string is
    converted first and the integer then compared against the bucket's
    bounds, so the answer is true exactly when
    [range_min <= k < range_max]. *)
Theorem key_in_range_hex_agrees (self : KBucket) (h : string) (k : Z) :
  hex_to_long h = Some k ->
  exists b,
    key_in_range hex_to_long (KeyStr h) self = (Returned b, self) /\
    key_in_range hex_to_long (KeyInt k) self = (Returned b, self) /\
    b = (range_min self <=? k) && (k <? range_max self) /\
    (b = true <-> range_min self <= k < range_max self).
Proof.
  intros Hk. exists ((range_min self <=? k) && (k <? range_max self)).
  unfold key_in_range. run_method. rewrite Hk.
  do 3 (split; [reflexivity|]).
  rewrite andb_true_iff, Z.leb_le, Z.ltb_lt. reflexivity.
Qed.

(** C9.  [last_accessed] is 0 in a freshly constructed bucket, no call on
    the public interface changes it, whether the call returns or raises,
    and so it is still 0 after any sequence of calls. *)
Theorem last_accessed_never_written :
  (forall lo hi, last_accessed (__init__ lo hi) = 0) /\
  (forall c self,
      last_accessed (after K hex_to_long c self) = last_accessed self) /\
  (forall lo hi calls,
      last_accessed (history K hex_to_long lo hi calls) = 0).
Proof.
  assert (Hstep : forall c self,
             last_accessed (after K hex_to_long c self) = last_accessed self).
  { intros c self.
    destruct (after_cases K hex_to_long c self) as [-> | [l ->]];
      reflexivity. }
  repeat split; [exact Hstep|].
  intros lo hi calls. unfold history.
  assert (Hrun : forall self,
             last_accessed
               (fold_left (fun s c => after K hex_to_long c s) calls self) =
             last_accessed self).
  { induction calls as [|c calls IH]; intros self; simpl; [reflexivity|].
    now rewrite IH, Hstep. }
  now rewrite Hrun.
Qed.

(** C10.  An [add_contact contact] that returned can be repeated at once:
    the second call returns too and the bucket after it is the bucket after
    the first, same contacts in the same order, same size.  This holds of
    every bucket whose contacts have pairwise distinct IDs, which is the
    data model's invariant; in particular of every bucket reached from the
    constructor by calls on the public interface. *)
Theorem add_contact_idempotent (contact : Contact.t) :
  (forall self self1,
      unique_ids (_contacts self) ->
      add_contact K contact self = (Returned tt, self1) ->
      add_contact K contact self1 = (Returned tt, self1)) /\
  (forall lo hi calls self1,
      add_contact K contact (history K hex_to_long lo hi calls) =
      (Returned tt, self1) ->
      add_contact K contact self1 = (Returned tt, self1)).
Proof.
  split.
  - intros self self1. apply add_contact_again.
  - intros lo hi calls self1. apply add_contact_again.
    exact (proj2 (kbucket_inv_history K hex_to_long lo hi calls)).
Qed.

End Claims.

(** ** The properties on the small bucket

    Each property above with a premise is applied here to the bucket of
    capacity 2 of the spec's scenario, its premises checked by evaluation. *)

Lemma add_contact_full_raises_witness :
  (PyList.len (_contacts (bucket_of [peer_a; peer_b])) = Z.of_nat 2 /\
   forall e, In e (_contacts (bucket_of [peer_a; peer_b])) ->
             Contact.id e <> Contact.id peer_c) /\
  add_contact 2 peer_c (bucket_of [peer_a; peer_b]) =
  (Raised KBucketFull, bucket_of [peer_a; peer_b]).
Proof.
  assert (Hnew : forall e, In e (_contacts (bucket_of [peer_a; peer_b])) ->
                           Contact.id e <> Contact.id peer_c)
    by distinct_ids.
  split; [split; [reflexivity | exact Hnew]|].
  exact (add_contact_full_raises 2 (bucket_of [peer_a; peer_b]) peer_c
           eq_refl Hnew).
Defined.

Lemma kbucket_inv_preserved_witness :
  kbucket_inv 2 (bucket_of [peer_a; peer_b]) /\
  kbucket_inv 2
    (after 2 hex_string_to_long (AddContact peer_c)
       (bucket_of [peer_a; peer_b])) /\
  kbucket_inv 2
    (after 2 hex_string_to_long (RemoveContact (PyStr "0a"))
       (bucket_of [peer_a; peer_b])).
Proof.
  assert (Hinv : kbucket_inv 2 (bucket_of [peer_a; peer_b])).
  { split; [unfold PyList.len; simpl; lia|].
    unfold unique_ids. simpl.
    repeat constructor; simpl; intuition discriminate. }
  repeat split; try apply Hinv;
    apply (proj1 (proj2 (kbucket_inv_preserved 2 hex_string_to_long)));
    exact Hinv.
Defined.

Lemma add_contact_existing_moves_to_tail_witness :
  (exists e, In e (_contacts (bucket_of [peer_a; peer_b])) /\
             Contact.id e = Contact.id peer_a_moved) /\
  exists before e after,
    _contacts (bucket_of [peer_a; peer_b]) = before ++ e :: after /\
    Contact.id e = Contact.id peer_a_moved /\
    (forall y, In y before -> Contact.id y <> Contact.id peer_a_moved) /\
    add_contact 2 peer_a_moved (bucket_of [peer_a; peer_b]) =
    (Returned tt,
     with_contacts (bucket_of [peer_a; peer_b])
       (before ++ after ++ [peer_a_moved])) /\
    PyList.len (before ++ after ++ [peer_a_moved]) =
    PyList.len (_contacts (bucket_of [peer_a; peer_b])).
Proof.
  assert (Hheld : exists e, In e (_contacts (bucket_of [peer_a; peer_b])) /\
                            Contact.id e = Contact.id peer_a_moved).
  { exists peer_a. split; [left|]; reflexivity. }
  split; [exact Hheld|].
  exact (add_contact_existing_moves_to_tail 2 (bucket_of [peer_a; peer_b])
           peer_a_moved Hheld).
Defined.

Lemma add_contact_new_appends_witness :
  (PyList.len (_contacts (bucket_of [peer_a])) < Z.of_nat 2 /\
   forall e, In e (_contacts (bucket_of [peer_a])) ->
             Contact.id e <> Contact.id peer_b) /\
  exists self',
    add_contact 2 peer_b (bucket_of [peer_a]) = (Returned tt, self') /\
    self' = with_contacts (bucket_of [peer_a])
              (_contacts (bucket_of [peer_a]) ++ [peer_b]) /\
    PyList.len (_contacts self') =
    PyList.len (_contacts (bucket_of [peer_a])) + 1.
Proof.
  assert (Hroom : PyList.len (_contacts (bucket_of [peer_a])) < Z.of_nat 2)
    by reflexivity.
  assert (Hnew : forall e, In e (_contacts (bucket_of [peer_a])) ->
                           Contact.id e <> Contact.id peer_b)
    by distinct_ids.
  split; [split; assumption|].
  exact (add_contact_new_appends 2 (bucket_of [peer_a]) peer_b Hroom Hnew).
Defined.

Lemma get_contacts_prefix_then_exclude_witness :
  (exists e, In e (firstn 2 [peer_a; peer_b; peer_c]) /\
             contact_eq e (PyStr "0b") = true) /\
  exists result,
    get_contacts 2 (PyStr "0b") (bucket_of [peer_a; peer_b; peer_c]) =
    (Returned result, bucket_of [peer_a; peer_b; peer_c]) /\
    (List.length result + 1 =
     List.length (firstn 2 [peer_a; peer_b; peer_c]))%nat.
Proof.
  assert (Hheld : exists e, In e (firstn 2 [peer_a; peer_b; peer_c]) /\
                            contact_eq e (PyStr "0b") = true).
  { exists peer_b. split; [right; left|]; reflexivity. }
  split; [exact Hheld|].
  destruct (get_contacts_prefix_then_exclude
              (bucket_of [peer_a; peer_b; peer_c]) 2 (PyStr "0b"))
    as (result & Hrun & _ & Hdrop).
  destruct (Hdrop Hheld) as (before & e & after & _ & _ & _ & _ & Hlen).
  exists result. split; [exact Hrun | exact Hlen].
Defined.

(** The claim as first written has the lower bound in range for every
    bucket.  [KBucket(7, 7)] is a bucket the constructor builds, and its
    lower bound is not in its range. *)
Lemma key_in_range_lower_bound_of_empty_range :
  range_min (__init__ 7 7) = 7 /\
  key_in_range hex_string_to_long (KeyInt 7) (__init__ 7 7) =
  (Returned false, __init__ 7 7).
Proof. split; reflexivity. Qed.

Lemma key_in_range_half_open_witness :
  key_in_range hex_string_to_long (KeyInt 0) (bucket_of []) =
  (Returned true, bucket_of []) /\
  key_in_range hex_string_to_long (KeyInt 256) (bucket_of []) =
  (Returned false, bucket_of []).
Proof.
  destruct (key_in_range_half_open hex_string_to_long (bucket_of []) 0)
    as (_ & Hmax & Hmin).
  split; [exact Hmin | exact Hmax].
Defined.

Lemma absent_id_raises_value_error_witness :
  (forall e, In e (_contacts (bucket_of [peer_a; peer_b])) ->
             contact_eq e (PyStr "0c") = false) /\
  get_contact (PyStr "0c") (bucket_of [peer_a; peer_b]) =
  (Raised ValueError, bucket_of [peer_a; peer_b]) /\
  remove_contact (PyStr "0c") (bucket_of [peer_a; peer_b]) =
  (Raised ValueError, bucket_of [peer_a; peer_b]).
Proof.
  assert (Habsent : forall e, In e (_contacts (bucket_of [peer_a; peer_b])) ->
                              contact_eq e (PyStr "0c") = false).
  { intros e H. cbn in H.
    destruct H as [<- | [<- | []]]; reflexivity. }
  split; [exact Habsent|].
  exact (proj1 (absent_id_raises_value_error
                  (bucket_of [peer_a; peer_b]) (PyStr "0c")) Habsent).
Defined.

Lemma key_in_range_hex_agrees_witness :
  hex_string_to_long "0a" = Some 10 /\
  exists b,
    key_in_range hex_string_to_long (KeyStr "0a") (bucket_of []) =
    (Returned b, bucket_of []) /\
    key_in_range hex_string_to_long (KeyInt 10) (bucket_of []) =
    (Returned b, bucket_of []) /\
    b = (range_min (bucket_of []) <=? 10) && (10 <? range_max (bucket_of []))
    /\ (b = true <->
        range_min (bucket_of []) <= 10 < range_max (bucket_of [])).
Proof.
  split; [reflexivity|].
  exact (key_in_range_hex_agrees hex_string_to_long (bucket_of []) "0a" 10
           eq_refl).
Defined.

Lemma last_accessed_never_written_witness :
  last_accessed
    (history 2 hex_string_to_long 0 256
       [AddContact peer_a; AddContact peer_b; AddContact peer_c;
        AddContact peer_a; GetContacts 1 PyNone; RemoveContact (PyStr "0b");
        GetContact (PyStr "0b"); KeyInRange (KeyStr "0a"); Len]) = 0.
Proof.
  apply (proj2 (proj2 (last_accessed_never_written 2 hex_string_to_long))).
Defined.

Lemma add_contact_idempotent_witness :
  (unique_ids (_contacts (bucket_of [peer_a; peer_b])) /\
   add_contact 2 peer_a_moved (bucket_of [peer_a; peer_b]) =
   (Returned tt, bucket_of [peer_b; peer_a_moved])) /\
  add_contact 2 peer_a_moved (bucket_of [peer_b; peer_a_moved]) =
  (Returned tt, bucket_of [peer_b; peer_a_moved]).
Proof.
  assert (Huniq : unique_ids (_contacts (bucket_of [peer_a; peer_b]))).
  { unfold unique_ids. simpl.
    repeat constructor; simpl; intuition discriminate. }
  split; [split; [exact Huniq | reflexivity]|].
  exact (proj1 (add_contact_idempotent 2 hex_string_to_long peer_a_moved)
           (bucket_of [peer_a; peer_b]) (bucket_of [peer_b; peer_a_moved])
           Huniq eq_refl).
Defined.

(** ** The scenario of the spec, run

    Capacity 2, range [0, 256): add A, add B, add C (refused), touch A,
    ask for one contact, remove B, look B up. *)
Example scenario_capacity_two :
  let run := history 2 hex_string_to_long 0 256 in
  _contacts (run [AddContact peer_a]) = [peer_a] /\
  _contacts (run [AddContact peer_a; AddContact peer_b]) = [peer_a; peer_b] /\
  perform 2 hex_string_to_long (AddContact peer_c)
    (run [AddContact peer_a; AddContact peer_b]) =
  (Some KBucketFull, run [AddContact peer_a; AddContact peer_b]) /\
  _contacts
    (run [AddContact peer_a; AddContact peer_b; AddContact peer_c;
          AddContact peer_a]) = [peer_b; peer_a] /\
  fst (get_contacts 1 PyNone
         (run [AddContact peer_a; AddContact peer_b; AddContact peer_c;
               AddContact peer_a])) = Returned [peer_b] /\
  _contacts
    (run [AddContact peer_a; AddContact peer_b; AddContact peer_c;
          AddContact peer_a; RemoveContact (PyStr "0b")]) = [peer_a] /\
  fst (get_contact (PyStr "0b")
         (run [AddContact peer_a; AddContact peer_b; AddContact peer_c;
               AddContact peer_a; RemoveContact (PyStr "0b")])) =
  Raised ValueError.
Proof. repeat split. Qed.

(** Why C10 asks for distinct IDs: a list written by hand with one ID twice,
    which no sequence of calls produces, loses its second copy only at the
    second [add_contact]. *)
Remark add_contact_twice_outside_the_invariant :
  add_contact 2 peer_a (bucket_of [peer_a; peer_a_moved]) =
  (Returned tt, bucket_of [peer_a_moved; peer_a]) /\
  add_contact 2 peer_a (bucket_of [peer_a_moved; peer_a]) =
  (Returned tt, bucket_of [peer_a; peer_a]).
Proof. split; reflexivity. Qed.

(** ** More about the list primitives *)

(** Equality with a lookup target looks at the ID alone. *)
Lemma contact_eq_same_id (e e' : Contact.t) (x : pyobj) :
  Contact.id e = Contact.id e' -> contact_eq e x = contact_eq e' x.
Proof. intros H. destruct x; simpl; try rewrite H; reflexivity. Qed.

Lemma contact_eq_true_same_id (e e' : Contact.t) (x : pyobj) :
  contact_eq e x = true -> contact_eq e' x = true ->
  Contact.id e = Contact.id e'.
Proof.
  destruct x as [c|s|]; simpl; [| |discriminate];
    rewrite !String.eqb_eq; congruence.
Qed.

(** Where [index] finds a present value: at the first match. *)
Lemma index_first_match (x : pyobj) (l : list Contact.t) :
  PyList.contains x l = true ->
  exists before e after,
    l = before ++ e :: after /\
    contact_eq e x = true /\
    (forall y, In y before -> contact_eq y x = false) /\
    PyList.index x l = Some (List.length before) /\
    PyList.getitem l (List.length before) = Some e.
Proof.
  induction l as [|a l IH]; simpl; [discriminate|].
  destruct (contact_eq a x) eqn:Ha; simpl; intros H.
  - exists [], a, l. simpl. repeat split; auto. intros y [].
  - destruct (IH H) as (before & e & after & -> & He & Hb & -> & Hget).
    exists (a :: before), e, after. simpl. repeat split; auto.
    intros y [<- | Hy]; auto.
Qed.

(** What [index] returns is a position of the list. *)
Lemma index_in_range (x : pyobj) (l : list Contact.t) (i : nat) :
  PyList.index x l = Some i -> exists e, PyList.getitem l i = Some e.
Proof.
  revert i. induction l as [|a l IH]; simpl; intros i H; [discriminate|].
  destruct (contact_eq a x).
  - injection H as <-. simpl. eauto.
  - destruct (PyList.index x l) as [j|]; [|discriminate].
    injection H as <-. simpl. now apply IH.
Qed.

(** With distinct IDs, taking the match out leaves none behind. *)
Lemma unique_ids_split_absent (x : pyobj) (before after : list Contact.t)
      (e : Contact.t) :
  unique_ids (before ++ e :: after) -> contact_eq e x = true ->
  PyList.contains x (before ++ after) = false.
Proof.
  unfold unique_ids. intros Hl He. apply contains_false. intros y Hy.
  destruct (contact_eq y x) eqn:Hyx; [|reflexivity]. exfalso.
  rewrite map_app in Hl. simpl in Hl. apply NoDup_remove_2 in Hl.
  apply Hl. rewrite <- map_app.
  rewrite (contact_eq_true_same_id e y x He Hyx). now apply in_map.
Qed.

Lemma unique_ids_firstn (n : nat) (l : list Contact.t) :
  unique_ids l -> unique_ids (firstn n l).
Proof.
  unfold unique_ids. intros H.
  rewrite <- (firstn_skipn n l), map_app in H.
  now apply NoDup_app_remove_r in H.
Qed.

(** A lookup in a list that ends with the one match. *)
Lemma index_last (x : pyobj) (l : list Contact.t) (c : Contact.t) :
  PyList.contains x l = false -> contact_eq c x = true ->
  PyList.index x (l ++ [c]) = Some (List.length l) /\
  PyList.getitem (l ++ [c]) (List.length l) = Some c.
Proof.
  intros Hl Hc. induction l as [|a l IH]; simpl in *.
  - now rewrite Hc.
  - apply orb_false_iff in Hl as [-> Hl].
    destruct (IH Hl) as [-> Hget]. auto.
Qed.

Lemma contains_str_of_contact (c : Contact.t) (l : list Contact.t) :
  PyList.contains (PyStr (Contact.id c)) l = PyList.contains (PyContact c) l.
Proof. induction l as [|a l IH]; simpl; [reflexivity | now rewrite IH]. Qed.

(** ** More about the methods *)

Section MoreMethodFacts.

Variable K : nat.
Variable hex_to_long : string -> option Z.

(** What an [add_contact] that returned has left: the contact at the tail
    of a list that, IDs being distinct, holds no other with its ID. *)
Lemma add_contact_returned (self self1 : KBucket) (contact : Contact.t) :
  unique_ids (_contacts self) ->
  add_contact K contact self = (Returned tt, self1) ->
  exists l,
    PyList.contains (PyContact contact) l = false /\
    self1 = with_contacts self (l ++ [contact]).
Proof.
  intros Huniq Hfirst.
  destruct (add_contact_cases K self contact)
    as [(r & Hr & E) | [(Hin & _ & E) | (_ & _ & E)]];
    rewrite E in Hfirst; [| |discriminate]; injection Hfirst as <-.
  - exists r. split; [|reflexivity].
    exact (unique_ids_remove_absent _ _ _ Huniq Hr).
  - exists (_contacts self). auto.
Qed.

Lemma get_contact_cases (self : KBucket) (id : pyobj) :
  (PyList.contains id (_contacts self) = false /\
   get_contact id self = (Raised ValueError, self))
  \/ (exists before e after,
         _contacts self = before ++ e :: after /\
         contact_eq e id = true /\
         (forall y, In y before -> contact_eq y id = false) /\
         get_contact id self = (Returned e, self)).
Proof.
  unfold get_contact. run_method.
  destruct (PyList.contains id (_contacts self)) eqn:Hin.
  - right.
    destruct (index_first_match _ _ Hin)
      as (before & e & after & Hl & He & Hb & Hidx & Hget).
    exists before, e, after. rewrite Hidx, Hget. auto.
  - left. now rewrite (index_absent _ _ Hin).
Qed.

(** [get_contacts] in its two branches, on the slice it cuts. *)
Lemma get_contacts_cases (self : KBucket) (count : Z) (x : pyobj) :
  let size := PyList.len (_contacts self) in
  let wanted := if count <=? 0 then size else count in
  let slice := firstn (Z.to_nat (Z.min wanted size)) (_contacts self) in
  (PyList.contains x slice = false /\
   get_contacts count x self = (Returned slice, self))
  \/ (exists before e after,
         slice = before ++ e :: after /\
         contact_eq e x = true /\
         get_contacts count x self = (Returned (before ++ after), self)).
Proof.
  intros size wanted slice.
  pose proof (get_contacts_slice (_contacts self) count) as Hcut.
  cbv zeta in Hcut. fold size in Hcut. fold wanted in Hcut. fold slice in Hcut.
  unfold get_contacts. run_method. fold size. fold wanted. rewrite Hcut.
  destruct (PyList.contains x slice) eqn:Hin.
  - right. destruct (remove_present _ _ Hin) as [r Hr]. rewrite Hr.
    destruct (remove_some _ _ _ Hr) as (before & e & after & Hs & -> & He & _).
    exists before, e, after. auto.
  - now left.
Qed.

End MoreMethodFacts.

(** ** Further properties of the store *)

Section Further.

Variable K : nat.
Variable hex_to_long : string -> option Z.

(** X1.  A call that raises has changed nothing: the bucket after it is the
    bucket before it.  And the exceptions are the ones the class shows:
    [add_contact] raises nothing but [KBucketFull] (its [remove] cannot fail,
    membership being checked first), [get_contact] and [remove_contact]
    nothing but [ValueError] (the position [index] gives is always a valid
    one), and [get_contacts], [__len__] and [key_in_range] on an integer key
    never raise.  Nothing is said of what the conversion of a string key
    raises. *)
Theorem raising_call_changes_nothing (c : call) (self : KBucket) (e : exn) :
  fst (perform K hex_to_long c self) = Some e ->
  snd (perform K hex_to_long c self) = self /\
  match c with
  | AddContact _ => e = KBucketFull
  | GetContact _ | RemoveContact _ => e = ValueError
  | KeyInRange (KeyStr _) => True
  | GetContacts _ _ | KeyInRange (KeyInt _) | Len => False
  end.
Proof.
  unfold perform. destruct c as [contact|id|count x|id|k|].
  - destruct (add_contact_cases K self contact)
      as [(r & _ & ->) | [(_ & _ & ->) | (_ & _ & ->)]]; simpl;
      intros H; try discriminate. injection H as <-. auto.
  - destruct (get_contact_cases self id)
      as [(_ & ->) | (before & e0 & after' & _ & _ & _ & ->)]; simpl;
      intros H; try discriminate. injection H as <-. auto.
  - destruct (get_contacts_cases self count x)
      as [(_ & ->) | (before & e0 & after' & _ & _ & ->)]; simpl;
      discriminate.
  - destruct (remove_contact_cases self id) as [(r & _ & ->) | (_ & ->)];
      simpl; intros H; try discriminate. injection H as <-. auto.
  - rewrite snd_status, key_in_range_frame. intros H. split; [reflexivity|].
    destruct k as [s|z]; [exact I|]. simpl in H. discriminate.
  - simpl. discriminate.
Qed.

(** X2.  When some stored contact equals [id], [get_contact id] returns the
    first such contact in stored order and leaves the bucket as it was; it
    never ends in an [IndexError]. *)
Theorem get_contact_returns_first_match (self : KBucket) (id : pyobj) :
  (exists e, In e (_contacts self) /\ contact_eq e id = true) ->
  exists before e after,
    _contacts self = before ++ e :: after /\
    contact_eq e id = true /\
    (forall y, In y before -> contact_eq y id = false) /\
    get_contact id self = (Returned e, self).
Proof.
  intros Hsome. apply contains_true in Hsome.
  destruct (get_contact_cases self id) as [(Hno & _) | Hfound];
    [congruence | exact Hfound].
Qed.

(** X3.  When some stored contact equals [id], [remove_contact id] returns
    and takes out the first such contact, the others keeping their order.
    If the IDs were distinct, none equal to [id] is left: a [get_contact id]
    on the bucket after the removal raises [ValueError]. *)
Theorem remove_contact_takes_first_match (self : KBucket) (id : pyobj) :
  (exists e, In e (_contacts self) /\ contact_eq e id = true) ->
  exists before e after,
    _contacts self = before ++ e :: after /\
    contact_eq e id = true /\
    (forall y, In y before -> contact_eq y id = false) /\
    remove_contact id self =
    (Returned tt, with_contacts self (before ++ after)) /\
    (unique_ids (_contacts self) ->
     get_contact id (with_contacts self (before ++ after)) =
     (Raised ValueError, with_contacts self (before ++ after))).
Proof.
  intros Hsome. apply contains_true in Hsome.
  destruct (remove_contact_cases self id) as [(r & Hr & Hrm) | (Hno & _)];
    [|congruence].
  destruct (remove_some _ _ _ Hr) as (before & e & after & Hl & -> & He & Hb).
  exists before, e, after. repeat split; auto.
  intros Huniq. rewrite Hl in Huniq.
  pose proof (unique_ids_split_absent id before after e Huniq He) as Hgone.
  destruct (get_contact_cases (with_contacts self (before ++ after)) id)
    as [(_ & Hget) | (b' & e' & a' & Hl' & He' & _)]; [exact Hget|].
  simpl in Hl'. apply contains_false with (e := e') in Hgone; [congruence|].
  rewrite Hl'. apply in_elt.
Qed.

(** X4.  Insert, then look up.  In a bucket with distinct IDs, after an
    [add_contact contact] that returned, [get_contact] by the contact or by
    its id string returns [contact] itself: the value just passed in, also
    when an older value with that ID was stored before. *)
Theorem add_contact_then_get_contact
        (self self1 : KBucket) (contact : Contact.t) :
  unique_ids (_contacts self) ->
  add_contact K contact self = (Returned tt, self1) ->
  get_contact (PyContact contact) self1 = (Returned contact, self1) /\
  get_contact (PyStr (Contact.id contact)) self1 = (Returned contact, self1).
Proof.
  intros Huniq Hadd.
  destruct (add_contact_returned K self self1 contact Huniq Hadd)
    as (l & Hl & ->).
  assert (Hget : forall x,
             PyList.contains x l = false -> contact_eq contact x = true ->
             get_contact x (with_contacts self (l ++ [contact])) =
             (Returned contact, with_contacts self (l ++ [contact]))).
  { intros x Hx Hc. unfold get_contact. run_method.
    change (_contacts (with_contacts self (l ++ [contact])))
      with (l ++ [contact]).
    destruct (index_last x l contact Hx Hc) as [Hidx Hitem].
    rewrite Hidx. cbv beta iota.
    change (_contacts (with_contacts self (l ++ [contact])))
      with (l ++ [contact]).
    now rewrite Hitem. }
  split; apply Hget; auto using contact_eq_refl.
  - now rewrite contains_str_of_contact.
  - simpl. apply String.eqb_refl.
Qed.

(** X5.  Insert, then remove.  Adding a contact whose ID is new to a bucket
    with room and then removing it by its id gives back the bucket as it was
    before the two calls. *)
Theorem add_contact_then_remove_contact
        (self : KBucket) (contact : Contact.t) :
  PyList.len (_contacts self) < Z.of_nat K ->
  (forall e, In e (_contacts self) -> Contact.id e <> Contact.id contact) ->
  exists self1,
    add_contact K contact self = (Returned tt, self1) /\
    remove_contact (PyStr (Contact.id contact)) self1 = (Returned tt, self).
Proof.
  intros Hroom Hnew.
  assert (Hin : PyList.contains (PyContact contact) (_contacts self) = false).
  { apply contains_false. intros e He. apply String.eqb_neq. auto. }
  eexists. split; [now apply add_contact_absent_room|].
  unfold remove_contact. run_method. simpl. unfold PyList.append.
  rewrite remove_last.
  - unfold with_contacts. simpl. now destruct self.
  - now rewrite contains_str_of_contact.
  - simpl. apply String.eqb_refl.
Qed.

(** X6.  A batch of new peers.  Take a bucket within its capacity and a
    list [cs] of contacts with pairwise distinct IDs, none of them stored.
    The loop [for c in cs: add_contact(c)] appends them in the order given
    for as long as there is room: it returns when they all fit, and else
    raises [KBucketFull] at the first that does not, the bucket then holding
    the old contacts followed by the first [K - len] of [cs]. *)
Theorem add_each_fills_in_order (cs : list Contact.t) (self : KBucket) :
  PyList.len (_contacts self) <= Z.of_nat K ->
  NoDup (map Contact.id cs) ->
  (forall e c, In e (_contacts self) -> In c cs ->
               Contact.id e <> Contact.id c) ->
  add_each K cs self =
  (if (List.length (_contacts self) + List.length cs <=? K)%nat
   then Returned tt else Raised KBucketFull,
   with_contacts self
     (_contacts self ++ firstn (K - List.length (_contacts self)) cs)).
Proof.
  revert self. induction cs as [|c cs IH]; intros self Hlen Hnodup Hnew.
  - simpl. unfold ret. rewrite firstn_nil, app_nil_r, with_contacts_same.
    destruct (Nat.leb_spec (List.length (_contacts self) + 0) K) as [_ | H];
      [reflexivity|].
    unfold PyList.len in Hlen. lia.
  - assert (Hin : PyList.contains (PyContact c) (_contacts self) = false).
    { apply contains_false. intros e He. apply String.eqb_neq.
      apply Hnew; [exact He | now left]. }
    apply NoDup_cons_iff in Hnodup as [Hc Hnodup]. simpl add_each.
    unfold bind.
    destruct (Z.lt_ge_cases (PyList.len (_contacts self)) (Z.of_nat K))
      as [Hroom | Hfull].
    + rewrite (add_contact_absent_room K self c Hin Hroom).
      rewrite IH; clear IH.
      * unfold PyList.len in Hroom. unfold PyList.append. simpl _contacts.
        rewrite length_app. simpl List.length.
        replace (K - List.length (_contacts self))%nat
          with (S (K - (List.length (_contacts self) + 1)))%nat by lia.
        simpl firstn. rewrite <- app_assoc. simpl app.
        replace (List.length (_contacts self) + 1 + List.length cs)%nat
          with (List.length (_contacts self) + S (List.length cs))%nat
          by lia.
        reflexivity.
      * simpl. unfold PyList.append. rewrite len_app_one. lia.
      * exact Hnodup.
      * simpl. unfold PyList.append. intros e c' He Hc'.
        apply in_app_or in He as [He | [<- | []]].
        -- apply Hnew; [exact He | now right].
        -- intros Heq. apply Hc. rewrite Heq. now apply in_map.
    + rewrite (add_contact_absent_full K self c Hin Hfull).
      unfold PyList.len in Hlen, Hfull.
      replace (K - List.length (_contacts self))%nat with O by lia.
      simpl firstn. rewrite app_nil_r, with_contacts_same.
      destruct (Nat.leb_spec
                  (List.length (_contacts self) + List.length (c :: cs)) K)
        as [H | _]; [|reflexivity].
      simpl in H. lia.
Qed.

(** X7.  Two buckets that meet, the upper bound of one being the lower
    bound of the other, never both claim a key; and when the bounds are in
    order, the keys the two claim between them are exactly the keys from
    the lower bound of the first up to the upper bound of the second, which
    is what lets a range be cut in two at any point. *)
Theorem key_in_range_adjacent_buckets (lower upper : KBucket) (k : Z) :
  range_max lower = range_min upper ->
  exists in_lower in_upper,
    key_in_range hex_to_long (KeyInt k) lower = (Returned in_lower, lower) /\
    key_in_range hex_to_long (KeyInt k) upper = (Returned in_upper, upper) /\
    in_lower && in_upper = false /\
    (range_min lower <= range_max lower <= range_max upper ->
     (in_lower || in_upper = true <->
      range_min lower <= k < range_max upper)).
Proof.
  intros Hmeet. unfold key_in_range. run_method.
  do 2 eexists. split; [reflexivity|]. split; [reflexivity|].
  rewrite <- Hmeet. split.
  - destruct (Z.leb_spec (range_min lower) k),
             (Z.ltb_spec k (range_max lower)),
             (Z.leb_spec (range_max lower) k); simpl; auto; lia.
  - intros Horder.
    rewrite orb_true_iff, !andb_true_iff, !Z.leb_le, !Z.ltb_lt. lia.
Qed.

(** X8.  No call moves the bounds: after any sequence of calls on a bucket
    built as [KBucket(lo, hi)] the bounds are [lo] and [hi], so what
    [key_in_range] answers for an integer key depends on the constructor's
    arguments alone, not on the contacts that came and went. *)
Theorem bounds_fixed_by_constructor (lo hi : Z) (calls : list call) (k : Z) :
  let self := history K hex_to_long lo hi calls in
  range_min self = lo /\
  range_max self = hi /\
  key_in_range hex_to_long (KeyInt k) self =
  (Returned ((lo <=? k) && (k <? hi)), self).
Proof.
  intros self.
  assert (Hrun : forall s,
             range_min (fold_left (fun s c => after K hex_to_long c s) calls s)
             = range_min s /\
             range_max (fold_left (fun s c => after K hex_to_long c s) calls s)
             = range_max s).
  { induction calls as [|c calls IH]; intros s; simpl; [auto|].
    destruct (IH (after K hex_to_long c s)) as [-> ->].
    destruct (after_cases K hex_to_long c s) as [-> | [l ->]]; auto. }
  destruct (Hrun (__init__ lo hi)) as [Hmin Hmax].
  fold (history K hex_to_long lo hi calls) in Hmin, Hmax.
  fold self in Hmin, Hmax. simpl in Hmin, Hmax.
  repeat split; auto.
  unfold key_in_range. run_method. now rewrite Hmin, Hmax.
Qed.

(** X9.  What [get_contacts] hands out.  It always returns; every contact
    of the result is a stored contact; the result is no longer than the
    bucket, and no longer than [count] when [count] is positive.  If the
    stored IDs are distinct, so are the result's, and no contact of the
    result equals [exclude_contact]. *)
Theorem get_contacts_result_bounds
        (self : KBucket) (count : Z) (exclude_contact : pyobj) :
  exists result,
    get_contacts count exclude_contact self = (Returned result, self) /\
    (forall e, In e result -> In e (_contacts self)) /\
    PyList.len result <= PyList.len (_contacts self) /\
    (0 < count -> PyList.len result <= count) /\
    (unique_ids (_contacts self) ->
     unique_ids result /\
     forall e, In e result -> contact_eq e exclude_contact = false).
Proof.
  pose proof (get_contacts_cases self count exclude_contact) as Hcases.
  cbv zeta in Hcases.
  set (size := PyList.len (_contacts self)) in *.
  set (wanted := if count <=? 0 then size else count) in *.
  set (slice := firstn (Z.to_nat (Z.min wanted size)) (_contacts self)) in *.
  assert (Hsub : forall e, In e slice -> In e (_contacts self)).
  { intros e He. rewrite <- (firstn_skipn (Z.to_nat (Z.min wanted size))).
    apply in_or_app. now left. }
  assert (Hlen : PyList.len slice <= size /\
                 (0 < count -> PyList.len slice <= count)).
  { unfold PyList.len, slice. rewrite length_firstn.
    unfold size, PyList.len in *. split; [lia|].
    intros Hpos. unfold wanted. destruct (Z.leb_spec count 0); lia. }
  assert (Huniq : unique_ids (_contacts self) -> unique_ids slice)
    by apply unique_ids_firstn.
  destruct Hcases as [(Hno & ->) | (before & e & after' & Hs & He & ->)].
  - exists slice. split; [reflexivity|]. split; [exact Hsub|].
    split; [tauto|]. split; [tauto|].
    intros Hu. split; [now apply Huniq | now apply contains_false].
  - exists (before ++ after'). split; [reflexivity|].
    assert (Hshort : PyList.len (before ++ after') <= PyList.len slice).
    { rewrite Hs. unfold PyList.len. rewrite !length_app. simpl. lia. }
    split; [|split; [|split]].
    + intros y Hy. apply Hsub. rewrite Hs.
      apply in_app_or in Hy as [Hy | Hy]; apply in_or_app; [now left|].
      right. now right.
    + lia.
    + intros Hpos. destruct Hlen as [_ Hlen]. specialize (Hlen Hpos). lia.
    + intros Hu. specialize (Huniq Hu). rewrite Hs in Huniq. split.
      * unfold unique_ids in *. rewrite map_app in *. simpl in Huniq.
        now apply NoDup_remove_1 in Huniq.
      * apply contains_false.
        exact (unique_ids_split_absent _ _ _ _ Huniq He).
Qed.

(** X10.  A call about one peer leaves the others where they are.  Whether
    it returns or raises, [add_contact contact] keeps in store exactly the
    contacts with another ID that were there, and [remove_contact id]
    exactly the contacts not equal to [id]. *)
Theorem other_contacts_untouched (self : KBucket) :
  (forall contact y,
      Contact.id y <> Contact.id contact ->
      (In y (_contacts (snd (add_contact K contact self))) <->
       In y (_contacts self))) /\
  (forall id y,
      contact_eq y id = false ->
      (In y (_contacts (snd (remove_contact id self))) <->
       In y (_contacts self))).
Proof.
  assert (Hsplit : forall x y l r,
             contact_eq y x = false -> PyList.remove x l = Some r ->
             (In y r <-> In y l)).
  { intros x y l r Hy Hr.
    destruct (remove_some _ _ _ Hr) as (before & e & after' & -> & -> & He & _).
    rewrite !in_app_iff. simpl. split; [tauto|].
    intros [Hb | [<- | Ha]]; [tauto | congruence | tauto]. }
  split.
  - intros contact y Hy.
    assert (Hyc : contact_eq y (PyContact contact) = false)
      by now apply String.eqb_neq.
    assert (Hne : y <> contact) by (intros ->; now apply Hy).
    destruct (add_contact_cases K self contact)
      as [(r & Hr & ->) | [(_ & _ & ->) | (_ & _ & ->)]]; simpl;
      unfold PyList.append; rewrite ?in_app_iff; simpl.
    + rewrite (Hsplit _ _ _ _ Hyc Hr). split; [|tauto].
      intros [H | [H | []]]; [exact H | congruence].
    + split; [|tauto]. intros [H | [H | []]]; [exact H | congruence].
    + reflexivity.
  - intros id y Hy.
    destruct (remove_contact_cases self id) as [(r & Hr & ->) | (_ & ->)];
      simpl; [|reflexivity].
    exact (Hsplit _ _ _ _ Hy Hr).
Qed.

(** X11.  [__len__] counts what [get_contacts] lists.  On any bucket
    [__len__] returns the length of what [get_contacts()] with its default
    arguments returns, and that is every stored contact in stored order; on
    a bucket reached from the constructor by public calls the count lies
    between 0 and [K]. *)
Theorem len_counts_the_listing :
  (forall self,
      get_contacts 0 PyNone self = (Returned (_contacts self), self) /\
      __len__ self = (Returned (PyList.len (_contacts self)), self)) /\
  (forall lo hi calls,
      exists n,
        __len__ (history K hex_to_long lo hi calls) =
        (Returned n, history K hex_to_long lo hi calls) /\
        0 <= n <= Z.of_nat K).
Proof.
  split.
  - intros self. split; [|reflexivity].
    assert (Hnone : forall l, PyList.contains PyNone l = false).
    { intros l. apply contains_false. reflexivity. }
    destruct (get_contacts_cases self 0 PyNone)
      as [(_ & E) | (before & e & after' & _ & He & _)];
      [|discriminate].
    rewrite E. simpl. rewrite Z.min_id. unfold PyList.len.
    now rewrite Nat2Z.id, firstn_all.
  - intros lo hi calls. eexists. split; [reflexivity|].
    exact (proj1 (kbucket_inv_history K hex_to_long lo hi calls)).
Qed.

(** X12.  Removing makes room.  In a bucket within its capacity, full or
    not, after a [remove_contact] that returned, an [add_contact] of a
    contact whose ID is not among those left returns, with the contact at
    the tail; the bucket is then as long as before the removal. *)
Theorem remove_contact_makes_room
        (self self1 : KBucket) (id : pyobj) (contact : Contact.t) :
  PyList.len (_contacts self) <= Z.of_nat K ->
  remove_contact id self = (Returned tt, self1) ->
  (forall e, In e (_contacts self1) -> Contact.id e <> Contact.id contact) ->
  add_contact K contact self1 =
  (Returned tt, with_contacts self1 (_contacts self1 ++ [contact])) /\
  PyList.len (_contacts self1 ++ [contact]) = PyList.len (_contacts self).
Proof.
  intros Hlen Hrm Hnew.
  destruct (remove_contact_cases self id) as [(r & Hr & E) | (_ & E)];
    rewrite E in Hrm; [|discriminate].
  injection Hrm as <-. simpl in *.
  destruct (remove_some _ _ _ Hr) as (before & e & after' & Hl & Hr' & _).
  assert (Hshort : PyList.len r + 1 = PyList.len (_contacts self)).
  { unfold PyList.len. rewrite Hl, Hr', !length_app. simpl. lia. }
  split; [|rewrite len_app_one; exact Hshort].
  apply (add_contact_absent_room K (with_contacts self r) contact).
  - apply contains_false. intros y Hy. apply String.eqb_neq. auto.
  - simpl. lia.
Qed.

End Further.

(** ** The protocol echoes *)

(** X13.  A protocol the factory built for [node] and Twisted connected to
    a transport writes back each string it receives, unchanged and in order
    of arrival, and nothing else: [connectionMade] writes nothing.  The peer
    and the node it was built for stay as they were. *)
Theorem protocol_echoes_what_it_receives
        (Node : Type) (node : option Node) (t : Net.Transport)
        (raws : list string) :
  let self := Net.serve (Net.buildProtocol node t) raws in
  Net.written (Net.transport self) = Net.written t ++ raws /\
  Net.peer (Net.transport self) = Net.peer t /\
  Net._node self = node.
Proof.
  assert (Hrun : forall p : Net.DHTProtocol Node,
             Net.written (Net.transport (fold_left Net.stringReceived raws p))
             = Net.written (Net.transport p) ++ raws /\
             Net.peer (Net.transport (fold_left Net.stringReceived raws p))
             = Net.peer (Net.transport p) /\
             Net._node (fold_left Net.stringReceived raws p) = Net._node p).
  { induction raws as [|raw raws IH]; intros p; simpl.
    - now rewrite app_nil_r.
    - destruct (IH (Net.stringReceived p raw)) as (-> & -> & ->). simpl.
      now rewrite <- app_assoc. }
  cbv zeta. unfold Net.serve, Net.connectionMade. cbv zeta.
  destruct (Hrun (Net.buildProtocol node t)) as (-> & -> & ->).
  repeat split.
Qed.

(** ** The further properties on the small bucket *)

Lemma raising_call_changes_nothing_witness :
  fst (perform 2 hex_string_to_long (AddContact peer_c)
         (bucket_of [peer_a; peer_b])) = Some KBucketFull /\
  snd (perform 2 hex_string_to_long (AddContact peer_c)
         (bucket_of [peer_a; peer_b])) = bucket_of [peer_a; peer_b] /\
  KBucketFull = KBucketFull.
Proof.
  split; [reflexivity|].
  exact (raising_call_changes_nothing 2 hex_string_to_long
           (AddContact peer_c) (bucket_of [peer_a; peer_b]) KBucketFull
           eq_refl).
Defined.

Lemma get_contact_returns_first_match_witness :
  (exists e, In e (_contacts (bucket_of [peer_a; peer_b; peer_c])) /\
             contact_eq e (PyStr "0b") = true) /\
  exists before e after,
    _contacts (bucket_of [peer_a; peer_b; peer_c]) = before ++ e :: after /\
    contact_eq e (PyStr "0b") = true /\
    (forall y, In y before -> contact_eq y (PyStr "0b") = false) /\
    get_contact (PyStr "0b") (bucket_of [peer_a; peer_b; peer_c]) =
    (Returned e, bucket_of [peer_a; peer_b; peer_c]).
Proof.
  assert (Hheld : exists e,
             In e (_contacts (bucket_of [peer_a; peer_b; peer_c])) /\
             contact_eq e (PyStr "0b") = true).
  { exists peer_b. split; [right; left|]; reflexivity. }
  split; [exact Hheld|].
  exact (get_contact_returns_first_match
           (bucket_of [peer_a; peer_b; peer_c]) (PyStr "0b") Hheld).
Defined.

Lemma remove_contact_takes_first_match_witness :
  (exists e, In e (_contacts (bucket_of [peer_a; peer_b])) /\
             contact_eq e (PyStr "0a") = true) /\
  exists before e after,
    _contacts (bucket_of [peer_a; peer_b]) = before ++ e :: after /\
    contact_eq e (PyStr "0a") = true /\
    (forall y, In y before -> contact_eq y (PyStr "0a") = false) /\
    remove_contact (PyStr "0a") (bucket_of [peer_a; peer_b]) =
    (Returned tt, with_contacts (bucket_of [peer_a; peer_b])
                    (before ++ after)) /\
    (unique_ids (_contacts (bucket_of [peer_a; peer_b])) ->
     get_contact (PyStr "0a")
       (with_contacts (bucket_of [peer_a; peer_b]) (before ++ after)) =
     (Raised ValueError,
      with_contacts (bucket_of [peer_a; peer_b]) (before ++ after))).
Proof.
  assert (Hheld : exists e, In e (_contacts (bucket_of [peer_a; peer_b])) /\
                            contact_eq e (PyStr "0a") = true).
  { exists peer_a. split; [left|]; reflexivity. }
  split; [exact Hheld|].
  exact (remove_contact_takes_first_match
           (bucket_of [peer_a; peer_b]) (PyStr "0a") Hheld).
Defined.

Lemma add_contact_then_get_contact_witness :
  (unique_ids (_contacts (bucket_of [peer_a; peer_b])) /\
   add_contact 2 peer_a_moved (bucket_of [peer_a; peer_b]) =
   (Returned tt, bucket_of [peer_b; peer_a_moved])) /\
  get_contact (PyContact peer_a_moved) (bucket_of [peer_b; peer_a_moved]) =
  (Returned peer_a_moved, bucket_of [peer_b; peer_a_moved]) /\
  get_contact (PyStr "0a") (bucket_of [peer_b; peer_a_moved]) =
  (Returned peer_a_moved, bucket_of [peer_b; peer_a_moved]).
Proof.
  assert (Huniq : unique_ids (_contacts (bucket_of [peer_a; peer_b]))).
  { unfold unique_ids. simpl.
    repeat constructor; simpl; intuition discriminate. }
  split; [split; [exact Huniq | reflexivity]|].
  exact (add_contact_then_get_contact 2 (bucket_of [peer_a; peer_b])
           (bucket_of [peer_b; peer_a_moved]) peer_a_moved Huniq eq_refl).
Defined.

Lemma add_contact_then_remove_contact_witness :
  (PyList.len (_contacts (bucket_of [peer_a])) < Z.of_nat 2 /\
   forall e, In e (_contacts (bucket_of [peer_a])) ->
             Contact.id e <> Contact.id peer_b) /\
  exists self1,
    add_contact 2 peer_b (bucket_of [peer_a]) = (Returned tt, self1) /\
    remove_contact (PyStr "0b") self1 = (Returned tt, bucket_of [peer_a]).
Proof.
  assert (Hroom : PyList.len (_contacts (bucket_of [peer_a])) < Z.of_nat 2)
    by reflexivity.
  assert (Hnew : forall e, In e (_contacts (bucket_of [peer_a])) ->
                           Contact.id e <> Contact.id peer_b)
    by distinct_ids.
  split; [split; assumption|].
  exact (add_contact_then_remove_contact 2 (bucket_of [peer_a]) peer_b
           Hroom Hnew).
Defined.

Lemma add_each_fills_in_order_witness :
  (PyList.len (_contacts (bucket_of [])) <= Z.of_nat 2 /\
   NoDup (map Contact.id [peer_a; peer_b; peer_c]) /\
   forall e c, In e (_contacts (bucket_of [])) ->
               In c [peer_a; peer_b; peer_c] ->
               Contact.id e <> Contact.id c) /\
  add_each 2 [peer_a; peer_b; peer_c] (bucket_of []) =
  (Raised KBucketFull, bucket_of [peer_a; peer_b]).
Proof.
  assert (Hlen : PyList.len (_contacts (bucket_of [])) <= Z.of_nat 2)
    by (unfold PyList.len; simpl; lia).
  assert (Hnodup : NoDup (map Contact.id [peer_a; peer_b; peer_c])).
  { simpl. repeat constructor; simpl; intuition discriminate. }
  assert (Hnew : forall e c, In e (_contacts (bucket_of [])) ->
                             In c [peer_a; peer_b; peer_c] ->
                             Contact.id e <> Contact.id c)
    by (intros e c []).
  split; [repeat split; assumption|].
  exact (add_each_fills_in_order 2 [peer_a; peer_b; peer_c] (bucket_of [])
           Hlen Hnodup Hnew).
Defined.

Lemma key_in_range_adjacent_buckets_witness :
  range_max (__init__ 0 128) = range_min (__init__ 128 256) /\
  exists in_lower in_upper,
    key_in_range hex_string_to_long (KeyInt 128) (__init__ 0 128) =
    (Returned in_lower, __init__ 0 128) /\
    key_in_range hex_string_to_long (KeyInt 128) (__init__ 128 256) =
    (Returned in_upper, __init__ 128 256) /\
    in_lower && in_upper = false /\
    (range_min (__init__ 0 128) <= range_max (__init__ 0 128)
     <= range_max (__init__ 128 256) ->
     (in_lower || in_upper = true <->
      range_min (__init__ 0 128) <= 128 < range_max (__init__ 128 256))).
Proof.
  split; [reflexivity|].
  exact (key_in_range_adjacent_buckets hex_string_to_long
           (__init__ 0 128) (__init__ 128 256) 128 eq_refl).
Defined.

Lemma remove_contact_makes_room_witness :
  (PyList.len (_contacts (bucket_of [peer_a; peer_b])) <= Z.of_nat 2 /\
   remove_contact (PyStr "0a") (bucket_of [peer_a; peer_b]) =
   (Returned tt, bucket_of [peer_b]) /\
   forall e, In e (_contacts (bucket_of [peer_b])) ->
             Contact.id e <> Contact.id peer_c) /\
  add_contact 2 peer_c (bucket_of [peer_b]) =
  (Returned tt,
   with_contacts (bucket_of [peer_b])
     (_contacts (bucket_of [peer_b]) ++ [peer_c])) /\
  PyList.len (_contacts (bucket_of [peer_b]) ++ [peer_c]) =
  PyList.len (_contacts (bucket_of [peer_a; peer_b])).
Proof.
  assert (Hlen : PyList.len (_contacts (bucket_of [peer_a; peer_b]))
                 <= Z.of_nat 2)
    by (unfold PyList.len; simpl; lia).
  assert (Hnew : forall e, In e (_contacts (bucket_of [peer_b])) ->
                           Contact.id e <> Contact.id peer_c)
    by distinct_ids.
  split; [repeat split; assumption|].
  exact (remove_contact_makes_room 2 (bucket_of [peer_a; peer_b])
           (bucket_of [peer_b]) (PyStr "0a") peer_c Hlen eq_refl Hnew).
Defined.
